(** * FOFRA 2018: the fusion API of [fofra2018.h]

    The header declares the return codes, the status and candidate
    structures, and the two abstract interfaces [ScoreFuserInterface] and
    [TemplateFuserInterface] whose methods are all pure virtual.  The first
    part of this file embeds those declarations; the second part is a
    reference engine for the gallery and search half of
    [TemplateFuserInterface], written from the specification because the
    header holds no method body. *)

From Stdlib Require Import SpecFloat.
From stdpp Require Import base decidable numbers list sorting strings.

Local Open Scope Z_scope.

(** ** Return codes *)

(** [enum class ReturnCode]: twelve enumerators, numbered from [Success = 0]
    in declaration order. *)
Inductive ReturnCode :=
| Success
| ConfigError
| ParseError
| TemplateCreationError
| VerifTemplateError
| NumDataError
| TemplateFormatError
| InputLocationError
| MemoryError
| NotImplemented
| NonCongruentVectors
| VendorError.

#[global] Instance ReturnCode_eq_dec : EqDecision ReturnCode.
Proof. solve_decision. Defined.

(** The integer behind each enumerator. *)
Definition ReturnCode_value (rc : ReturnCode) : Z :=
  match rc with
  | Success => 0
  | ConfigError => 1
  | ParseError => 2
  | TemplateCreationError => 3
  | VerifTemplateError => 4
  | NumDataError => 5
  | TemplateFormatError => 6
  | InputLocationError => 7
  | MemoryError => 8
  | NotImplemented => 9
  | NonCongruentVectors => 10
  | VendorError => 11
  end.

(** The enumerator an integer stands for, if any. *)
Definition ReturnCode_of_value (z : Z) : option ReturnCode :=
  match z with
  | 0 => Some Success
  | 1 => Some ConfigError
  | 2 => Some ParseError
  | 3 => Some TemplateCreationError
  | 4 => Some VerifTemplateError
  | 5 => Some NumDataError
  | 6 => Some TemplateFormatError
  | 7 => Some InputLocationError
  | 8 => Some MemoryError
  | 9 => Some NotImplemented
  | 10 => Some NonCongruentVectors
  | 11 => Some VendorError
  | _ => None
  end.

(** [operator<<(std::ostream &, const ReturnCode &)]: the text written for
    the integer held by a [ReturnCode] object; the [default] label of the
    [switch] serves the integers that are no enumerator. *)
Definition ReturnCode_text (z : Z) : string :=
  match ReturnCode_of_value z with
  | Some Success => "Success"
  | Some ConfigError => "Error reading configuration files"
  | Some ParseError => "Cannot parse the input data"
  | Some TemplateCreationError => "Elective refusal to produce a template"
  | Some VerifTemplateError =>
      "Either/both input templates were result of failed feature extraction"
  | Some NumDataError => "Number of input images not supported"
  | Some TemplateFormatError =>
      "Template file is an incorrect format or defective"
  | Some InputLocationError =>
      "Cannot locate the input data - the input files or names seem incorrect"
  | Some MemoryError => "Memory allocation failed (e.g. out of memory)"
  | Some NonCongruentVectors =>
      "Vectors of different lengths passed to function expecting same lengths"
  | Some NotImplemented => "Function is not implemented"
  | Some VendorError => "Vendor-defined error"
  | None => "Undefined error"
  end.

(** ** Objects and their members *)

(** A member of scalar type after a constructor has run: the constructor
    either gave it a value through its member initializer list, or left it
    default-initialized, which for a scalar means an indeterminate value. *)
Inductive scalar (A : Type) :=
| indeterminate
| value (a : A).
Arguments indeterminate {A}.
Arguments value {A} a.

(** Reading a scalar member yields a value only when one was stored. *)
Definition read {A} (m : scalar A) : option A :=
  match m with
  | indeterminate => None
  | value a => Some a
  end.

(** [struct ReturnStatus]: [code] is a scalar (an enumeration), [info] is a
    [std::string], whose own default constructor makes it empty. *)
Record ReturnStatus := {
  code : scalar ReturnCode;
  info : string
}.

(** [ReturnStatus() {}]: empty member initializer list, empty body. *)
Definition ReturnStatus_default : ReturnStatus :=
  {| code := indeterminate; info := EmptyString |}.

(** [ReturnStatus(const ReturnCode code, const std::string &info)], with
    member initializers [code{code}] and [info{info}]. *)
Definition ReturnStatus_ctor (c : ReturnCode) (i : string) : ReturnStatus :=
  {| code := value c; info := i |}.

(** The same constructor called with the default argument of [info]. *)
Definition ReturnStatus_of (c : ReturnCode) : ReturnStatus :=
  ReturnStatus_ctor c EmptyString.

(** What a caller tests after a call: the status holds [Success]. *)
Definition succeeded (rs : ReturnStatus) : bool :=
  match read (code rs) with
  | Some Success => true
  | _ => false
  end.

(** ** Scores, candidates and templates *)

(** A [double]: a binary64 value of IEEE 754, as the standard library
    specifies them ([prec = 53], [emax = 1024]).  The doubles proper are
    the values that [is_double] accepts; what is proved below of every
    [spec_float] holds of them. *)
Definition double := spec_float.
Definition is_double (x : double) : bool := valid_binary 53 1024 x.

(** The literal [0.0]. *)
Definition double_zero : double := S754_zero false.

(** [using ScoreSet = std::vector<double>]. *)
Definition ScoreSet := list double.

(** [using Template = std::vector<double>]. *)
Definition Template := list double.

(** The values of [uint32_t]. *)
Definition uint32_max : Z := 2 ^ 32 - 1.
Definition is_uint32 (z : Z) : bool := (0 <=? z) && (z <=? uint32_max).

(** [struct Candidate]: [identity] is a [uint32_t], [score] a [double]. *)
Record Candidate := {
  identity : Z;
  score : double
}.

(** [Candidate()], with member initializers [identity{0}] and
    [score{0.0}]. *)
Definition Candidate_default : Candidate :=
  {| identity := 0; score := double_zero |}.

(** [Candidate(uint32_t identity, double score)]. *)
Definition Candidate_ctor (i : Z) (s : double) : Candidate :=
  {| identity := i; score := s |}.

(** [using CandidateList = std::vector<Candidate>]. *)
Definition CandidateList := list Candidate.

(** [CandidateList candidates(M)]: the vector a caller of [search]
    allocates beforehand holds [M] default-constructed candidates. *)
Definition preallocated (M : nat) : CandidateList :=
  replicate M Candidate_default.

(** ** Comparing scores *)

Definition is_nan (x : double) : bool :=
  match x with
  | S754_nan => true
  | _ => false
  end.

(** Modelled from the spec: the comparison of two scores behind the
    ranked output of [search].  On two numbers it is the IEEE 754
    comparison [SFcompare]; a NaN, which that comparison leaves unordered
    and the specification, whose scores are real, does not consider, is
    placed below every number, so that ranking is defined on every input. *)
Definition score_compare (x y : double) : comparison :=
  match SFcompare x y with
  | Some c => c
  | None =>
      match x, y with
      | S754_nan, S754_nan => Eq
      | S754_nan, _ => Lt
      | _, _ => Gt
      end
  end.

(** Modelled from the spec: the order of the ranked output of [search].
    [a] is ranked no later than [b]: higher score first, and on equal
    scores the smaller identity first. *)
Definition ranks_beforeb (a b : Candidate) : bool :=
  match score_compare (score a) (score b) with
  | Gt => true
  | Eq => identity a <=? identity b
  | Lt => false
  end.

Definition ranks_before (a b : Candidate) : Prop := ranks_beforeb a b = true.

#[global] Instance ranks_before_dec : RelDecision ranks_before.
Proof. intros a b. unfold ranks_before. apply _. Defined.

(** The same order stated with the IEEE 754 comparisons [<] and [==]
    alone: [b] scores strictly less than [a], or both score the same and
    [a] has the smaller or the same identity. *)
Definition descending (a b : Candidate) : Prop :=
  SFltb (score b) (score a) = true
  ∨ (SFeqb (score a) (score b) = true ∧ identity a <= identity b).

(** ** The score fuser interface *)

Module ScoreFuser.

(** [ScoreFuserInterface::Type]. *)
Inductive Type_ := Verification | Identification.

(** [class ScoreFuserInterface]: one field per pure virtual method, the
    object passed explicitly and returned, an [out] reference parameter
    passed with its contents on entry and returned with its contents on
    exit.  The header gives none of the three a body. *)
Class Interface (Impl : Type) := {
  initialize : Impl → string → Type_ → ReturnStatus * Impl;
  fuseVerificationScores :
    Impl → ScoreSet → double → ReturnStatus * double * Impl;
  fuseCandidateLists :
    Impl → list CandidateList → CandidateList
    → ReturnStatus * CandidateList * Impl
}.

End ScoreFuser.

(** ** The template fuser interface *)

(** [TemplateFuserInterface::Action]. *)
Inductive Action := Fuse | Verify | Identify.

#[global] Instance Action_eq_dec : EqDecision Action.
Proof. solve_decision. Defined.

(** [class TemplateFuserInterface]: one field per pure virtual method.  The
    object is passed explicitly and returned, since no method is [const];
    a reference parameter marked [out] is passed with its contents on entry
    and returned with its contents on exit.  The factory
    [getImplementation] is the choice of an instance. *)
Class TemplateFuserInterface (Impl : Type) := {
  initialize : Impl → string → Action → ReturnStatus * Impl;
  fuseTemplates :
    Impl → list Template → Template → ReturnStatus * Template * Impl;
  verify :
    Impl → Template → Template → double → ReturnStatus * double * Impl;
  createGallery : Impl → list Template → list Z → ReturnStatus * Impl;
  search :
    Impl → Template → CandidateList → ReturnStatus * CandidateList * Impl
}.

(** One call of the test harness on the object. *)
Inductive Call :=
| CallInitialize (directory : string) (action : Action)
| CallFuseTemplates (inputTemplates : list Template) (fusedTemplate : Template)
| CallVerify (enroll authentication : Template) (score : double)
| CallCreateGallery (templates : list Template) (ids : list Z)
| CallSearch (probe : Template) (candidates : CandidateList).

(** Making one call: the status returned and the object afterwards. *)
Definition perform {Impl} `{TemplateFuserInterface Impl}
    (st : Impl) (c : Call) : ReturnStatus * Impl :=
  match c with
  | CallInitialize d a => initialize st d a
  | CallFuseTemplates ts out => let '(rs, _, st') := fuseTemplates st ts out in (rs, st')
  | CallVerify e a out => let '(rs, _, st') := verify st e a out in (rs, st')
  | CallCreateGallery ts ids => createGallery st ts ids
  | CallSearch p cs => let '(rs, _, st') := search st p cs in (rs, st')
  end.

(** Making a sequence of calls on one object: the statuses in call order. *)
Fixpoint run {Impl} `{TemplateFuserInterface Impl}
    (st : Impl) (calls : list Call) : list ReturnStatus :=
  match calls with
  | [] => []
  | c :: rest => let '(rs, st') := perform st c in rs :: run st' rest
  end.

(** The object after a sequence of calls. *)
Fixpoint state_after {Impl} `{TemplateFuserInterface Impl}
    (st : Impl) (calls : list Call) : Impl :=
  match calls with
  | [] => st
  | c :: rest => state_after (perform st c).2 rest
  end.

(** ** A sample vendor

    Concrete choices for what a vendor supplies, used to run the engine. *)

(** Arithmetic of binary64. *)
Definition b64_add : double → double → double := SFadd 53 1024.
Definition b64_mul : double → double → double := SFmul 53 1024.

(** The [double] nearest to an integer. *)
Definition double_of_Z (z : Z) : double := binary_normalize 53 1024 z 0 false.

(** The inner product of two templates as similarity. *)
Definition inner_product (x y : Template) : double :=
  foldr (λ p acc, b64_add (b64_mul p.1 p.2) acc) double_zero (zip x y).

(** Four enrolled templates with their identities, and a probe. *)
Definition sample_templates : list Template :=
  [ [double_of_Z 1; double_of_Z 0];
    [double_of_Z 0; double_of_Z 1];
    [double_of_Z 1; double_of_Z 1];
    [double_of_Z 1; double_of_Z 0] ].
Definition sample_ids : list Z := [7; 3; 9; 2].
Definition sample_probe : Template := [double_of_Z 2; double_of_Z 1].

(** A session of the harness: it searches too early twice, then in order. *)
Definition sample_session : list Call :=
  [ CallSearch sample_probe (preallocated 3);
    CallInitialize "fofra" Identify;
    CallSearch sample_probe (preallocated 3);
    CallCreateGallery sample_templates sample_ids;
    CallSearch sample_probe (preallocated 3) ].

(** ** A reference engine for enrolment and search

    The header gives [TemplateFuserInterface] no method body: a vendor
    supplies them.  The engine below is written from the specification of
    the gallery index and search engine.  What the specification leaves to
    the vendor is a parameter of the section. *)

(** Modelled from the spec: the object behind [TemplateFuserInterface],
    whose class and members are not in the header.  The specification's
    state machine is Uninitialized, Loaded (after [initialize] with
    [Identify]), GalleryBuilt (after [createGallery]) and Searchable; no
    call separates the last two, so one constructor stands for both.  The
    loaded action is kept, the specification's Loaded being
    [Loaded Identify]; the gallery is the enrolled (template, identity)
    pairs in enrolment order. *)
Inductive Engine :=
| Uninitialized
| Loaded (action : Action)
| Searchable (gallery : list (Template * Z)).

(** The engine has an identifier loaded: it is Loaded for [Identify] or
    beyond. *)
Definition identifier_loaded (st : Engine) : bool :=
  match st with
  | Loaded Identify | Searchable _ => true
  | Uninitialized | Loaded _ => false
  end.

(** The engine is in the Searchable state. *)
Definition searchable (st : Engine) : bool :=
  match st with
  | Searchable _ => true
  | Uninitialized | Loaded _ => false
  end.

Section ReferenceEngine.

(** Whether the directory named by the harness holds a fusion scheme for
    the action; the file system is outside the engine. *)
Variable scheme_available : string → Action → bool.

(** The vendor's template fusion: the fused template, or nothing when it
    electively refuses. *)
Variable fusion_policy : list Template → option Template.

(** Whether a template has the shape the loaded scheme expects. *)
Variable well_shaped : Template → bool.

(** The vendor's similarity of an enrolled template and a probe. *)
Variable similarity : Template → Template → double.

(** Modelled from the spec: the body of
    [TemplateFuserInterface::initialize], pure virtual in the header.  It
    loads the scheme for the action from the directory and fails with
    [ConfigError] when the directory does not provide one. *)
Definition engine_initialize (st : Engine) (directory : string)
    (action : Action) : ReturnStatus * Engine :=
  if scheme_available directory action
  then (ReturnStatus_of Success, Loaded action)
  else (ReturnStatus_of ConfigError, st).

(** Modelled from the spec: the body of
    [TemplateFuserInterface::fuseTemplates], pure virtual in the header.
    Every call resolves to a fused template or to the elective refusal
    [TemplateCreationError]; the loaded state is only read. *)
Definition engine_fuseTemplates (st : Engine) (inputTemplates : list Template)
    (fusedTemplate : Template) : ReturnStatus * Template * Engine :=
  match fusion_policy inputTemplates with
  | Some fused => (ReturnStatus_of Success, fused, st)
  | None => (ReturnStatus_of TemplateCreationError, fusedTemplate, st)
  end.

(** Modelled from the spec: the body of [TemplateFuserInterface::verify],
    pure virtual in the header.  It fails with [TemplateFormatError] when
    either template has the wrong shape, and is otherwise the similarity
    of the pair; the loaded state is only read. *)
Definition engine_verify (st : Engine) (enroll authentication : Template)
    (out : double) : ReturnStatus * double * Engine :=
  if well_shaped enroll && well_shaped authentication
  then (ReturnStatus_of Success, similarity enroll authentication, st)
  else (ReturnStatus_of TemplateFormatError, out, st).

(** Modelled from the spec: the body of
    [TemplateFuserInterface::createGallery], pure virtual in the header.
    Vectors of different lengths fail with [NonCongruentVectors].  The
    gallery is built in one bulk load of the pairs [(templates[i],
    ids[i])], which needs the identifier loaded by [initialize] with
    [Identify]; building again replaces the gallery. *)
Definition engine_createGallery (st : Engine) (templates : list Template)
    (ids : list Z) : ReturnStatus * Engine :=
  if negb (length templates =? length ids)%nat
  then (ReturnStatus_of NonCongruentVectors, st)
  else
    match st with
    | Loaded Identify | Searchable _ =>
        (ReturnStatus_of Success, Searchable (zip templates ids))
    | Uninitialized | Loaded _ => (ReturnStatus_of NotImplemented, st)
    end.

(** Modelled from the spec: a step of [search], the candidate a gallery
    entry yields for a probe, its identity with the similarity as score. *)
Definition candidate_of (probe : Template) (entry : Template * Z) : Candidate :=
  Candidate_ctor entry.2 (similarity entry.1 probe).

(** Modelled from the spec: a step of [search], every gallery entry
    scored against the probe and sorted best first. *)
Definition ranking (gallery : list (Template * Z)) (probe : Template)
    : CandidateList :=
  merge_sort ranks_before (candidate_of probe <$> gallery).

(** Modelled from the spec: the body of [TemplateFuserInterface::search],
    pure virtual in the header.  In the Searchable state it returns the
    [candidates.size()] best gallery entries, highest score first and on
    equal scores smallest identity first, or all of them when the gallery
    has fewer.  Earlier it fails and leaves [candidates] as they were:
    with [InputLocationError] when only [createGallery] was skipped, with
    [NotImplemented] when no identifier is loaded. *)
Definition engine_search (st : Engine) (probe : Template)
    (candidates : CandidateList) : ReturnStatus * CandidateList * Engine :=
  match st with
  | Searchable gallery =>
      (ReturnStatus_of Success,
       take (length candidates) (ranking gallery probe), st)
  | Loaded Identify => (ReturnStatus_of InputLocationError, candidates, st)
  | Uninitialized | Loaded _ => (ReturnStatus_of NotImplemented, candidates, st)
  end.

(** The engine implements the interface. *)
#[local] Instance engine : TemplateFuserInterface Engine := {|
  initialize := engine_initialize;
  fuseTemplates := engine_fuseTemplates;
  verify := engine_verify;
  createGallery := engine_createGallery;
  search := engine_search
|}.

(** The statuses of a sequence of calls made on a new engine. *)
Definition engine_run (calls : list Call) : list ReturnStatus :=
  run Uninitialized calls.

(** The engine after a sequence of calls made on a new engine. *)
Definition engine_after (calls : list Call) : Engine :=
  state_after Uninitialized calls.

End ReferenceEngine.

(** ** The order on scores *)

Section ScoreOrder.

(** A key that orders the doubles as [score_compare] does: the class
    first (NaN, negative infinity, negative numbers, zeros, positive
    numbers, positive infinity), then exponent and mantissa. *)
Let key (x : double) : Z * Z * Z :=
  match x with
  | S754_nan => (-3, 0, 0)
  | S754_infinity true => (-2, 0, 0)
  | S754_finite true m e => (-1, - e, Z.neg m)
  | S754_zero _ => (0, 0, 0)
  | S754_finite false m e => (1, e, Z.pos m)
  | S754_infinity false => (2, 0, 0)
  end.

Let lex (a b : Z * Z * Z) : comparison :=
  match a.1.1 ?= b.1.1 with
  | Eq => match a.1.2 ?= b.1.2 with
          | Eq => a.2 ?= b.2
          | c => c
          end
  | c => c
  end.

Lemma score_compare_key x y : score_compare x y = lex (key x) (key y).
Proof.
  destruct x as [[]|[]| |[] mx ex], y as [[]|[]| |[] my ey];
    try reflexivity; unfold score_compare, lex; simpl.
  rewrite Z.compare_opp, (Z.compare_antisym ex ey).
  destruct (ex ?= ey); reflexivity.
Qed.

Let above (a b : Z * Z * Z) : Prop :=
  a.1.1 > b.1.1
  ∨ (a.1.1 = b.1.1 ∧ (a.1.2 > b.1.2 ∨ (a.1.2 = b.1.2 ∧ a.2 > b.2))).

Lemma lex_Gt a b : lex a b = Gt ↔ above a b.
Proof.
  destruct a as [[a1 a2] a3], b as [[b1 b2] b3]. unfold lex, above; simpl.
  destruct (Z.compare_spec a1 b1), (Z.compare_spec a2 b2),
    (Z.compare_spec a3 b3); split; intros; try congruence; lia.
Qed.

Lemma lex_Lt a b : lex a b = Lt ↔ above b a.
Proof.
  destruct a as [[a1 a2] a3], b as [[b1 b2] b3]. unfold lex, above; simpl.
  destruct (Z.compare_spec a1 b1), (Z.compare_spec a2 b2),
    (Z.compare_spec a3 b3); split; intros; try congruence; lia.
Qed.

Lemma lex_Eq a b : lex a b = Eq ↔ a = b.
Proof.
  destruct a as [[a1 a2] a3], b as [[b1 b2] b3]. unfold lex; simpl.
  destruct (Z.compare_spec a1 b1), (Z.compare_spec a2 b2),
    (Z.compare_spec a3 b3); split; intros; try congruence;
    exfalso; assert (a1 = b1 ∧ a2 = b2 ∧ a3 = b3) by (split_and?; congruence);
    lia.
Qed.

Lemma score_compare_antisym x y :
  score_compare y x = CompOpp (score_compare x y).
Proof.
  rewrite !score_compare_key.
  destruct (lex (key x) (key y)) eqn:E; simpl.
  - apply lex_Eq. apply lex_Eq in E. congruence.
  - apply lex_Gt. apply lex_Lt in E. exact E.
  - apply lex_Lt. apply lex_Gt in E. exact E.
Qed.

Lemma score_compare_Eq_trans x y z :
  score_compare x y = Eq → score_compare y z = Eq → score_compare x z = Eq.
Proof. rewrite !score_compare_key, !lex_Eq. congruence. Qed.

Lemma score_compare_Gt_Eq x y z :
  score_compare x y = Gt → score_compare y z = Eq → score_compare x z = Gt.
Proof.
  rewrite !score_compare_key, lex_Eq. intros H E. rewrite <- E. exact H.
Qed.

Lemma score_compare_Eq_Gt x y z :
  score_compare x y = Eq → score_compare y z = Gt → score_compare x z = Gt.
Proof.
  rewrite !score_compare_key, lex_Eq. intros E H. rewrite E. exact H.
Qed.

Lemma score_compare_Gt_trans x y z :
  score_compare x y = Gt → score_compare y z = Gt → score_compare x z = Gt.
Proof.
  rewrite !score_compare_key, !lex_Gt.
  destruct (key x) as [[a1 a2] a3], (key y) as [[b1 b2] b3],
    (key z) as [[c1 c2] c3]. unfold above; simpl. lia.
Qed.

End ScoreOrder.

(** ** Ranking *)

Lemma score_compare_number x y :
  is_nan x = false → is_nan y = false →
  SFcompare x y = Some (score_compare x y).
Proof.
  unfold score_compare.
  destruct x as [[]|[]| |[] mx ex], y as [[]|[]| |[] my ey];
    simpl; intros; try discriminate; reflexivity.
Qed.

#[global] Instance ranks_before_total : Total ranks_before.
Proof.
  intros a b. unfold ranks_before, ranks_beforeb.
  rewrite (score_compare_antisym (score a) (score b)).
  destruct (score_compare (score a) (score b)); simpl; auto.
  destruct (Z.leb_spec (identity a) (identity b)); [by left|right].
  apply Z.leb_le. lia.
Qed.

#[global] Instance ranks_before_trans : Transitive ranks_before.
Proof.
  intros a b c. unfold ranks_before, ranks_beforeb.
  destruct (score_compare (score a) (score b)) eqn:Hab; try discriminate;
    destruct (score_compare (score b) (score c)) eqn:Hbc; try discriminate;
    intros H1 H2.
  - rewrite (score_compare_Eq_trans _ _ _ Hab Hbc).
    apply Z.leb_le. apply Z.leb_le in H1, H2. lia.
  - by rewrite (score_compare_Eq_Gt _ _ _ Hab Hbc).
  - by rewrite (score_compare_Gt_Eq _ _ _ Hab Hbc).
  - by rewrite (score_compare_Gt_trans _ _ _ Hab Hbc).
Qed.

(** On candidates whose scores are numbers the ranking order is the
    descending order of the IEEE 754 comparisons. *)
Lemma ranks_before_descending a b :
  is_nan (score a) = false → is_nan (score b) = false →
  ranks_before a b → descending a b.
Proof.
  intros Ha Hb. unfold ranks_before, ranks_beforeb, descending, SFltb, SFeqb.
  rewrite (score_compare_number _ _ Ha Hb), (score_compare_number _ _ Hb Ha).
  rewrite (score_compare_antisym (score a) (score b)).
  destruct (score_compare (score a) (score b)); simpl; intros H;
    try discriminate.
  - right. split; [done|]. by apply Z.leb_le.
  - by left.
Qed.

Lemma StronglySorted_impl_Forall {A} (R R' : relation A) (P : A → Prop) l :
  (∀ a b, P a → P b → R a b → R' a b) →
  Forall P l → StronglySorted R l → StronglySorted R' l.
Proof.
  intros HR HP HS. induction HS as [|x l HS IH Hx]; [constructor|].
  apply Forall_cons in HP as [Px Pl]. constructor; [by apply IH|].
  rewrite Forall_forall in Hx, Pl |- *. intros y Hy. apply HR; auto.
Qed.

Section RankingFacts.

Context (similarity : Template → Template → double).

Lemma ranking_Permutation gallery probe :
  ranking similarity gallery probe ≡ₚ candidate_of similarity probe <$> gallery.
Proof. apply merge_sort_Permutation. Qed.

Lemma length_ranking gallery probe :
  length (ranking similarity gallery probe) = length gallery.
Proof. by rewrite ranking_Permutation, length_fmap. Qed.

Lemma ranking_sorted gallery probe :
  StronglySorted ranks_before (ranking similarity gallery probe).
Proof. apply StronglySorted_merge_sort; apply _. Qed.

Lemma ranking_descending gallery probe :
  Forall (λ e, is_nan (similarity e.1 probe) = false) gallery →
  StronglySorted descending (ranking similarity gallery probe).
Proof.
  intros Hnum.
  apply (StronglySorted_impl_Forall ranks_before descending
           (λ c, is_nan (score c) = false)).
  - apply ranks_before_descending.
  - rewrite ranking_Permutation. apply Forall_fmap.
    eapply Forall_impl; [exact Hnum|]. by intros [t i].
  - apply ranking_sorted.
Qed.

End RankingFacts.

(** A successful [createGallery] enrols the pairs and nothing else. *)
Lemma createGallery_success st templates ids rs st' :
  engine_createGallery st templates ids = (rs, st') →
  succeeded rs = true →
  length templates = length ids ∧ st' = Searchable (zip templates ids).
Proof.
  unfold engine_createGallery.
  destruct (length templates =? length ids)%nat eqn:Hlen; simpl.
  - apply Nat.eqb_eq in Hlen.
    destruct st as [|[]|g]; intros [= <- <-]; simpl; intros; try discriminate;
      done.
  - intros [= <- <-]. discriminate.
Qed.

(** C1. For a gallery built by a successful [createGallery] from [N]
    templates and identities, a [search] whose candidates vector has size
    [M] on entry succeeds and returns exactly [min M N] candidates, no more
    and no fewer.  They are gallery entries scored against the probe, in
    ranking order: higher score first and, on equal scores, smaller identity
    first; every entry left out ranks after every candidate returned.  When
    all similarities are numbers (none is a NaN) this is the descending
    order of the IEEE 754 comparisons: each candidate scores strictly less
    than the one before it, or the same with an identity not smaller. *)
Theorem search_returns_top_candidates
    (similarity : Template → Template → double)
    (st st' : Engine) (rs : ReturnStatus)
    (templates : list Template) (ids : list Z)
    (probe : Template) (candidates : CandidateList) :
  engine_createGallery st templates ids = (rs, st') →
  succeeded rs = true →
  ∃ found rest,
    engine_search similarity st' probe candidates
      = (ReturnStatus_of Success, found, st')
    ∧ length found = min (length candidates) (length templates)
    ∧ candidate_of similarity probe <$> zip templates ids ≡ₚ found ++ rest
    ∧ Sorted ranks_before found
    ∧ (∀ a b, a ∈ found → b ∈ rest → ranks_before a b)
    ∧ (Forall (λ t, is_nan (similarity t probe) = false) templates →
       Sorted descending found).
Proof.
  intros Hbuilt Hok.
  destruct (createGallery_success _ _ _ _ _ Hbuilt Hok) as [Hlen ->].
  set (gallery := zip templates ids).
  exists (take (length candidates) (ranking similarity gallery probe)),
    (drop (length candidates) (ranking similarity gallery probe)).
  pose proof (ranking_sorted similarity gallery probe) as Hsorted.
  rewrite <- (take_drop (length candidates)) in Hsorted.
  split_and!.
  - reflexivity.
  - rewrite length_take, length_ranking. unfold gallery.
    rewrite length_zip, <- Hlen. lia.
  - rewrite take_drop. symmetry. apply ranking_Permutation.
  - apply StronglySorted_Sorted. by eapply StronglySorted_app_1_l.
  - intros a b. by eapply StronglySorted_app_1_elem_of.
  - intros Hnum.
    assert (Hdesc : StronglySorted descending (ranking similarity gallery probe)).
    { apply ranking_descending. unfold gallery.
      clear -Hlen Hnum. revert ids Hlen.
      induction Hnum as [|t ts Ht _ IH]; intros [|i ids] Hlen;
        simpl in *; try discriminate; constructor; auto. }
    rewrite <- (take_drop (length candidates)) in Hdesc.
    apply StronglySorted_Sorted. by eapply StronglySorted_app_1_l.
Qed.

(** What the engine does with vectors of different lengths: the status is
    [NonCongruentVectors] and the engine is as before. *)
Lemma createGallery_mismatch st templates ids :
  length templates ≠ length ids →
  engine_createGallery st templates ids
    = (ReturnStatus_of NonCongruentVectors, st).
Proof.
  intros Hne. unfold engine_createGallery.
  by destruct (Nat.eqb_spec (length templates) (length ids)).
Qed.

(** ** Sequences of calls *)

Section Runs.

Context {Impl : Type} `{TemplateFuserInterface Impl}.

Lemma state_after_snoc (st : Impl) calls c :
  state_after st (calls ++ [c]) = (perform (state_after st calls) c).2.
Proof. revert st. induction calls as [|c' calls IH]; intros st; simpl; auto. Qed.

(** The status of the [n]-th call is what the call returns on the object
    left by the calls before it. *)
Lemma run_lookup (st : Impl) calls n c :
  calls !! n = Some c →
  run st calls !! n = Some (perform (state_after st (take n calls)) c).1.
Proof.
  revert st n. induction calls as [|c' calls IH]; intros st n Hn; [done|].
  simpl. destruct (perform st c') as [rs st'] eqn:Hc'.
  destruct n as [|n]; simpl in *.
  - injection Hn as ->. by rewrite Hc'.
  - rewrite Hc'. simpl. by apply IH.
Qed.

End Runs.

Section EngineRuns.

Context (scheme_available : string → Action → bool)
        (fusion_policy : list Template → option Template)
        (well_shaped : Template → bool)
        (similarity : Template → Template → double).

Let E := engine scheme_available fusion_policy well_shaped similarity.

(** Only a successful [initialize] with [Identify] loads an identifier. *)
Lemma perform_identifier_loaded st c :
  identifier_loaded (perform (H:=E) st c).2 = true →
  identifier_loaded st = true
  ∨ ∃ d, c = CallInitialize d Identify
         ∧ succeeded (perform (H:=E) st c).1 = true.
Proof.
  destruct c as [d a|ts out|e a out|ts ids|p cs]; simpl.
  - unfold engine_initialize. destruct (scheme_available d a); simpl; auto.
    destruct a; simpl; try discriminate. intros _. right. by exists d.
  - unfold engine_fuseTemplates. destruct (fusion_policy ts); simpl; auto.
  - unfold engine_verify.
    destruct (well_shaped e && well_shaped a); simpl; auto.
  - unfold engine_createGallery.
    destruct (negb _); simpl; auto. destruct st as [|[]|g]; simpl; auto.
  - destruct st as [|[]|g]; simpl; auto.
Qed.

(** Only a successful [createGallery], made with an identifier loaded,
    makes the engine Searchable. *)
Lemma perform_searchable st c :
  searchable (perform (H:=E) st c).2 = true →
  searchable st = true
  ∨ ∃ ts ids, c = CallCreateGallery ts ids
              ∧ succeeded (perform (H:=E) st c).1 = true
              ∧ identifier_loaded st = true.
Proof.
  destruct c as [d a|ts out|e a out|ts ids|p cs]; simpl.
  - unfold engine_initialize. destruct (scheme_available d a); simpl; auto.
    discriminate.
  - unfold engine_fuseTemplates. destruct (fusion_policy ts); simpl; auto.
  - unfold engine_verify.
    destruct (well_shaped e && well_shaped a); simpl; auto.
  - unfold engine_createGallery.
    destruct (negb _); simpl; auto.
    destruct st as [|[]|g]; simpl; auto. intros _. right. by exists ts, ids.
  - destruct st as [|[]|g]; simpl; auto.
Qed.

Lemma reach_identifier_loaded st calls :
  identifier_loaded (state_after (H:=E) st calls) = true →
  identifier_loaded st = true
  ∨ ∃ i d, calls !! i = Some (CallInitialize d Identify)
           ∧ succeeded (perform (H:=E) (state_after (H:=E) st (take i calls))
                          (CallInitialize d Identify)).1 = true.
Proof.
  induction calls as [|c calls IH] using rev_ind; simpl; auto.
  rewrite state_after_snoc. intros Hid.
  apply perform_identifier_loaded in Hid as [Hid|(d & -> & Hok)].
  - destruct (IH Hid) as [?|(i & d & Hi & Hok)]; auto.
    right. exists i, d. pose proof (lookup_lt_Some _ _ _ Hi).
    rewrite lookup_app_l, take_app_le by lia. auto.
  - right. exists (length calls), d.
    rewrite list_lookup_middle, take_app_length by done. auto.
Qed.

Lemma reach_searchable st calls :
  searchable (state_after (H:=E) st calls) = true →
  searchable st = true
  ∨ ∃ j ts ids, calls !! j = Some (CallCreateGallery ts ids)
      ∧ succeeded (perform (H:=E) (state_after (H:=E) st (take j calls))
                     (CallCreateGallery ts ids)).1 = true
      ∧ identifier_loaded (state_after (H:=E) st (take j calls)) = true.
Proof.
  induction calls as [|c calls IH] using rev_ind; simpl; auto.
  rewrite state_after_snoc. intros Hs.
  apply perform_searchable in Hs as [Hs|(ts & ids & -> & Hok & Hid)].
  - destruct (IH Hs) as [?|(j & ts & ids & Hj & Hok & Hid)]; auto.
    right. exists j, ts, ids. pose proof (lookup_lt_Some _ _ _ Hj).
    rewrite lookup_app_l, take_app_le by lia. auto.
  - right. exists (length calls), ts, ids.
    rewrite list_lookup_middle, take_app_length by done. auto.
Qed.

(** A [search] made on an engine that is not Searchable fails with one
    of the two ordering statuses and changes nothing. *)
Lemma search_too_early st probe candidates :
  searchable st = false →
  engine_search similarity st probe candidates
    = (ReturnStatus_of InputLocationError, candidates, st)
  ∨ engine_search similarity st probe candidates
    = (ReturnStatus_of NotImplemented, candidates, st).
Proof. destruct st as [|[]|g]; simpl; auto. discriminate. Qed.

End EngineRuns.

(** C8. In every sequence of calls made on a new engine, a [search] issued
    while the engine is not Searchable returns a status that is not
    [Success], namely one of the ordering statuses [InputLocationError] and
    [NotImplemented]; and a [search] that succeeds comes after a successful
    [initialize] with [Identify] and, later, a successful [createGallery]. *)
Theorem search_succeeds_only_when_searchable
    (scheme_available : string → Action → bool)
    (fusion_policy : list Template → option Template)
    (well_shaped : Template → bool)
    (similarity : Template → Template → double)
    (calls : list Call) (n : nat)
    (probe : Template) (candidates : CandidateList) (rs : ReturnStatus) :
  calls !! n = Some (CallSearch probe candidates) →
  engine_run scheme_available fusion_policy well_shaped similarity calls !! n
    = Some rs →
  (searchable (engine_after scheme_available fusion_policy well_shaped
                 similarity (take n calls)) = false →
   succeeded rs = false
   ∧ (rs = ReturnStatus_of InputLocationError
      ∨ rs = ReturnStatus_of NotImplemented))
  ∧ (succeeded rs = true →
     ∃ i j directory templates ids rsi rsj,
       (i < j < n)%nat
       ∧ calls !! i = Some (CallInitialize directory Identify)
       ∧ engine_run scheme_available fusion_policy well_shaped similarity
           calls !! i = Some rsi
       ∧ succeeded rsi = true
       ∧ calls !! j = Some (CallCreateGallery templates ids)
       ∧ engine_run scheme_available fusion_policy well_shaped similarity
           calls !! j = Some rsj
       ∧ succeeded rsj = true).
Proof.
  unfold engine_run, engine_after. intros Hn Hrs.
  rewrite (run_lookup _ _ _ _ Hn) in Hrs. injection Hrs as <-. simpl.
  set (E := engine scheme_available fusion_policy well_shaped similarity).
  set (stn := state_after Uninitialized (take n calls)).
  split.
  - intros Hearly.
    destruct (search_too_early similarity stn probe candidates Hearly)
      as [-> | ->]; simpl; auto.
  - intros Hok.
    assert (Hs : searchable stn = true).
    { destruct (searchable stn) eqn:Hs; [done|].
      destruct (search_too_early similarity stn probe candidates Hs)
        as [Heq | Heq]; rewrite Heq in Hok; discriminate. }
    apply reach_searchable in Hs as [?|(j & ts & ids & Hj & Hjok & Hid)];
      [discriminate|].
    apply lookup_take_Some in Hj as [Hj Hjn].
    rewrite take_take, Nat.min_l in Hjok, Hid by lia.
    apply reach_identifier_loaded in Hid as [?|(i & d & Hi & Hiok)];
      [discriminate|].
    apply lookup_take_Some in Hi as [Hi Hij].
    rewrite take_take, Nat.min_l in Hiok by lia.
    eexists i, j, d, ts, ids, _, _. split; [lia|].
    split_and!; [exact Hi|by apply run_lookup|exact Hiok
                |exact Hj|by apply run_lookup|exact Hjok].
Qed.

(** ** Return codes and default-constructed objects *)

(** Every enumerator is found back from its integer, and the twelve
    integers are those from 0 to 11. *)
Lemma ReturnCode_of_value_value rc :
  ReturnCode_of_value (ReturnCode_value rc) = Some rc.
Proof. by destruct rc. Qed.

Lemma ReturnCode_value_range rc : 0 <= ReturnCode_value rc <= 11.
Proof. destruct rc; simpl; lia. Qed.

(** An integer that is no enumerator is written as an undefined error. *)
Lemma ReturnCode_text_undefined z :
  z < 0 ∨ 11 < z → ReturnCode_text z = "Undefined error".
Proof.
  intros Hz. unfold ReturnCode_text.
  assert (ReturnCode_of_value z = None) as ->; [|done].
  destruct z as [|p|p]; [lia| |done].
  do 4 (destruct p as [p|p|]; try done; try lia).
Qed.

(** X1. The text [operator<<] writes identifies the code: two enumerators
    are written as the same text only when they are the same enumerator. *)
Theorem ReturnCode_text_identifies_code (a b : ReturnCode) :
  ReturnCode_text (ReturnCode_value a) = ReturnCode_text (ReturnCode_value b)
  ↔ a = b.
Proof.
  split; [|by intros ->].
  destruct a, b; intros Htext; try reflexivity; discriminate Htext.
Qed.

(** X2. The [switch] of [operator<<] has a label for every enumerator: the
    [default] text is written exactly for the integers that are no
    enumerator, those below 0 or above 11. *)
Theorem ReturnCode_text_undefined_iff (z : Z) :
  ReturnCode_text z = "Undefined error" ↔ z < 0 ∨ 11 < z.
Proof.
  split; [|apply ReturnCode_text_undefined].
  destruct (decide (z < 0 ∨ 11 < z)) as [|Hin]; [done|].
  assert (z = 0 ∨ z = 1 ∨ z = 2 ∨ z = 3 ∨ z = 4 ∨ z = 5 ∨ z = 6 ∨ z = 7
          ∨ z = 8 ∨ z = 9 ∨ z = 10 ∨ z = 11) as Hz by lia.
  destruct_or!; subst z; discriminate.
Qed.

(** X3. The enumerators of [ReturnCode] are numbered without repeat or
    gap: different enumerators have different integers, the integers taken
    are exactly those from 0 to 11, and 0 is taken by [Success] alone. *)
Theorem ReturnCode_value_numbering :
  (∀ a b, ReturnCode_value a = ReturnCode_value b ↔ a = b)
  ∧ (∀ z, (∃ rc, ReturnCode_value rc = z) ↔ 0 <= z <= 11)
  ∧ (∀ rc, ReturnCode_value rc = 0 ↔ rc = Success).
Proof.
  split_and!.
  - intros a b. split; [|by intros ->].
    destruct a, b; intros Hv; try reflexivity; discriminate Hv.
  - intros z. split.
    + intros [rc <-]. apply ReturnCode_value_range.
    + intros Hz.
      destruct (ReturnCode_of_value z) as [rc|] eqn:Hrc.
      * exists rc. destruct z as [|p|p]; [by injection Hrc as <-| |done].
        do 4 (destruct p as [p|p|]; try done; try by injection Hrc as <-).
      * exfalso. destruct z as [|p|p]; [done| |lia].
        do 4 (destruct p as [p|p|]; try done; try lia).
  - intros rc. split; [|by intros ->]. destruct rc; intros Hv; done.
Qed.

(** C9. The default constructor of [ReturnStatus] leaves [code]
    indeterminate: reading it does not yield [Success], whose value is 0,
    nor any other code.  The constructor taking a code stores that code,
    whatever the information string. *)
Theorem default_status_code_indeterminate :
  code ReturnStatus_default = indeterminate
  ∧ read (code ReturnStatus_default) ≠ Some Success
  ∧ (∀ c, read (code ReturnStatus_default) ≠ Some c)
  ∧ ReturnCode_value Success = 0
  ∧ (∀ c i, read (code (ReturnStatus_ctor c i)) = Some c)
  ∧ (∀ c, read (code (ReturnStatus_of c)) = Some c).
Proof. split_and!; simpl; intros; done. Qed.

(** C10. A default-constructed [Candidate] is the candidate of identity 0
    and score 0.0, and 0 is a value of [uint32_t], the type of gallery
    identities.  The vector of [M] candidates a caller allocates for
    [search] is therefore equal, element by element, to a list of [M]
    candidates constructed for identity 0 with score 0.0. *)
Theorem preallocated_candidates_look_genuine (M : nat) :
  Candidate_default = Candidate_ctor 0 double_zero
  ∧ identity Candidate_default = 0
  ∧ score Candidate_default = S754_zero false
  ∧ is_uint32 (identity Candidate_default) = true
  ∧ length (preallocated M) = M
  ∧ preallocated M = replicate M (Candidate_ctor 0 double_zero)
  ∧ (∀ i, (i < M)%nat →
       preallocated M !! i = Some (Candidate_ctor 0 double_zero)).
Proof.
  split_and!; try reflexivity.
  - apply length_replicate.
  - intros i Hi. by apply lookup_replicate_2.
Qed.

(** ** The theorems at work on the sample vendor *)

Lemma search_returns_top_candidates_witness :
  ∃ found rest,
    engine_search inner_product (Searchable (zip sample_templates sample_ids))
      sample_probe (preallocated 3)
      = (ReturnStatus_of Success, found,
         Searchable (zip sample_templates sample_ids))
    ∧ length found = 3%nat
    ∧ candidate_of inner_product sample_probe <$> zip sample_templates sample_ids
        ≡ₚ found ++ rest
    ∧ Sorted ranks_before found
    ∧ (∀ a b, a ∈ found → b ∈ rest → ranks_before a b)
    ∧ Sorted descending found.
Proof.
  destruct (search_returns_top_candidates inner_product (Loaded Identify)
              (Searchable (zip sample_templates sample_ids))
              (ReturnStatus_of Success) sample_templates sample_ids
              sample_probe (preallocated 3) eq_refl eq_refl)
    as (found & rest & Hsearch & Hlen & Hperm & Hsorted & Htop & Hdesc).
  exists found, rest.
  split_and!; [exact Hsearch|exact Hlen|exact Hperm|exact Hsorted|exact Htop|].
  apply Hdesc. repeat constructor.
Defined.

Lemma search_succeeds_only_when_searchable_witness :
  (succeeded (ReturnStatus_of NotImplemented) = false
   ∧ (ReturnStatus_of NotImplemented = ReturnStatus_of InputLocationError
      ∨ ReturnStatus_of NotImplemented = ReturnStatus_of NotImplemented))
  ∧ ∃ i j directory templates ids rsi rsj,
      (i < j < 4)%nat
      ∧ sample_session !! i = Some (CallInitialize directory Identify)
      ∧ engine_run (λ _ _, true) (λ _, None) (λ _, true) inner_product
          sample_session !! i = Some rsi
      ∧ succeeded rsi = true
      ∧ sample_session !! j = Some (CallCreateGallery templates ids)
      ∧ engine_run (λ _ _, true) (λ _, None) (λ _, true) inner_product
          sample_session !! j = Some rsj
      ∧ succeeded rsj = true.
Proof.
  split.
  - apply (search_succeeds_only_when_searchable (λ _ _, true) (λ _, None)
             (λ _, true) inner_product sample_session 0 sample_probe
             (preallocated 3) (ReturnStatus_of NotImplemented) eq_refl eq_refl).
    reflexivity.
  - apply (search_succeeds_only_when_searchable (λ _ _, true) (λ _, None)
             (λ _, true) inner_product sample_session 4 sample_probe
             (preallocated 3) (ReturnStatus_of Success) eq_refl eq_refl).
    reflexivity.
Defined.

(** The sample search returns the three best of the four entries; the two
    entries that tie on the score come in the order of their identities. *)
Example sample_search_result :
  engine_search inner_product (Searchable (zip sample_templates sample_ids))
    sample_probe (preallocated 3)
  = (ReturnStatus_of Success,
     [ Candidate_ctor 9 (double_of_Z 3);
       Candidate_ctor 2 (double_of_Z 2);
       Candidate_ctor 7 (double_of_Z 2) ],
     Searchable (zip sample_templates sample_ids)).
Proof. reflexivity. Qed.

(** Asking for more candidates than the gallery holds returns the gallery. *)
Example sample_search_short_gallery :
  identity <$> (engine_search inner_product
                  (Searchable (zip sample_templates sample_ids))
                  sample_probe (preallocated 6)).1.2
  = [9; 2; 7; 3].
Proof. reflexivity. Qed.

(** The statuses of the sample session. *)
Example sample_session_statuses :
  engine_run (λ _ _, true) (λ _, None) (λ _, true) inner_product sample_session
  = ReturnStatus_of <$>
      [NotImplemented; Success; InputLocationError; Success; Success].
Proof. reflexivity. Qed.

(** A similarity that is a NaN is ranked last. *)
Example nan_ranks_last :
  identity <$> ranking (λ t _, default S754_nan (head t))
                 [([S754_nan], 1); ([double_of_Z 5], 2); ([double_of_Z 8], 3)] []
  = [3; 2; 1].
Proof. reflexivity. Qed.
